(** * cf_ai_chat: the chat session Durable Object and its Worker router

    A shallow embedding of [src/index.ts]: the [MyDurableObject] class
    (one SQLite table of messages per session) and the Worker's [fetch]
    handler, followed by the properties of the conversation store and
    of the HTTP surface. *)

From Stdlib Require Import ZArith Floats.PrimFloat.
From stdpp Require Import gmap strings list.

Local Open Scope string_scope.
Local Open Scope Z_scope.
Local Open Scope list_scope.

(** ** Messages *)

(** [ChatMessage["role"]]: a union of three string literals. *)
Inductive Role := user | assistant | system.

Definition role_text (r : Role) : string :=
  match r with
  | user => "user"
  | assistant => "assistant"
  | system => "system"
  end.

Record ChatMessage := { role : Role; content : string }.

(** ** The SQLite storage of one Durable Object

    The [messages] table, [id INTEGER PRIMARY KEY AUTOINCREMENT, role,
    content, created_at].  [sqlite_sequence] is the counter SQLite keeps
    for an AUTOINCREMENT key: the largest id the table ever held. *)

Record Row := { id : Z; row_role : Role; row_content : string; created_at : Z }.

Record Table := { rows : list Row; sqlite_sequence : Z }.

(** [CREATE TABLE IF NOT EXISTS messages (...)]: the storage of an object
    that never ran has no table ([None]); an existing table is kept. *)
Definition create_table_if_not_exists (st : option Table) : Table :=
  match st with
  | Some t => t
  | None => {| rows := []; sqlite_sequence := 0 |}
  end.

Fixpoint max_rowid (l : list Row) : Z :=
  match l with
  | [] => 0
  | r :: l' => Z.max (id r) (max_rowid l')
  end.

(** [INSERT INTO messages (role, content) VALUES (?, ?)]: the new id is one
    more than the largest id ever used, [created_at] defaults to
    [unixepoch()]. Ids are unbounded here (SQLite's are 64-bit). *)
Definition next_id (t : Table) : Z :=
  Z.max (sqlite_sequence t) (max_rowid (rows t)) + 1.

Definition insert_message (now : Z) (r : Role) (c : string) (t : Table) : Table :=
  {| rows := rows t ++ [{| id := next_id t; row_role := r; row_content := c;
                           created_at := now |}];
     sqlite_sequence := next_id t |}.

(** [DELETE FROM messages]: every row goes, the AUTOINCREMENT counter stays. *)
Definition delete_messages (t : Table) : Table :=
  {| rows := []; sqlite_sequence := sqlite_sequence t |}.

(** [ORDER BY id ASC], as a stable insertion sort on the id column. *)
Fixpoint insert_by_id (r : Row) (l : list Row) : list Row :=
  match l with
  | [] => [r]
  | r' :: l' => if id r <=? id r' then r :: r' :: l' else r' :: insert_by_id r l'
  end.

Fixpoint order_by_id (l : list Row) : list Row :=
  match l with
  | [] => []
  | r :: l' => insert_by_id r (order_by_id l')
  end.

(** [SELECT role, content FROM messages ORDER BY id ASC], with the loop of
    [getHistory] that pushes one [{role, content}] per row of the cursor. *)
Definition select_messages (t : Table) : list ChatMessage :=
  map (fun row => {| role := row_role row; content := row_content row |})
      (order_by_id (rows t)).

(** ** Workers AI and the environment *)

Inductive Exn :=
| SyntaxError (msg : string)
| TypeError (msg : string)
| AiError (msg : string).

(** What [env.AI.run] resolves to, as far as [chat] looks at it: a string,
    [null]/[undefined], or any other value, of which only the [response]
    property is read ([None] when the property is missing or undefined). *)
Inductive AiResponse :=
| AiString (s : string)
| AiNullish
| AiObject (response : option string).

Inductive AiOutcome :=
| AiReturns (r : AiResponse)
| AiThrows (e : Exn).

Record AiCall := { model : string; messages : list ChatMessage }.

(** ** JSON values, as [request.json()] and [Response.json] see them *)

#[local] Set Warnings "-register-all".

Inductive Json :=
| JNull
| JBool (b : bool)
| JNumber (d : float)
| JString (s : string)
| JArray (items : list Json)
| JObject (fields : list (string * Json)).

(** The bindings and clocks one invocation runs with. [AI_run] is the
    inference call; [getByName_coerce] is what the namespace binding makes
    of a name that is not a string ([None]: it throws). *)
Record Env := {
  AI_run : AiCall -> AiOutcome;
  unixepoch : Z;
  toISOString : string;
  getByName_coerce : Json -> option string
}.

(** ** Effects: state, the inference calls made, exceptions *)

Record Outcome (S A : Type) := {
  state : S;
  ai_calls : list AiCall;
  result : Exn + A
}.
Arguments state {S A} _.
Arguments ai_calls {S A} _.
Arguments result {S A} _.
Arguments Build_Outcome {S A} _ _ _.

Definition Eff (S A : Type) : Type := S -> Outcome S A.

Definition ret {S A} (a : A) : Eff S A :=
  fun s => {| state := s; ai_calls := []; result := inr a |}.

Definition throw {S A} (e : Exn) : Eff S A :=
  fun s => {| state := s; ai_calls := []; result := inl e |}.

Definition bind {S A B} (m : Eff S A) (k : A -> Eff S B) : Eff S B :=
  fun s =>
    let o := m s in
    match result o with
    | inl e => {| state := state o; ai_calls := ai_calls o; result := inl e |}
    | inr a =>
        let o' := k a (state o) in
        {| state := state o'; ai_calls := ai_calls o ++ ai_calls o';
           result := result o' |}
    end.

(** [try { m } catch (error) { h }] *)
Definition try_catch {S A} (m : Eff S A) (h : Exn -> Eff S A) : Eff S A :=
  fun s =>
    let o := m s in
    match result o with
    | inl e =>
        let o' := h e (state o) in
        {| state := state o'; ai_calls := ai_calls o ++ ai_calls o';
           result := result o' |}
    | inr a => o
    end.

Definition gets {S A} (f : S -> A) : Eff S A :=
  fun s => {| state := s; ai_calls := []; result := inr (f s) |}.

Definition modify {S} (f : S -> S) : Eff S unit :=
  fun s => {| state := f s; ai_calls := []; result := inr tt |}.

Definition lift_result {S A} (r : Exn + A) : Eff S A :=
  fun s => {| state := s; ai_calls := []; result := r |}.

(** stdpp's monad notations: [x ← m; k] and [m;; k]. *)
#[global] Instance Eff_ret {S} : MRet (Eff S) := @ret S.
#[global] Instance Eff_bind {S} : MBind (Eff S) := fun A B k m => bind m k.

(** ** JavaScript operators the program uses *)

(** [a || b] where [a] is a string, [null] or [undefined]: the empty
    string is falsy, as the missing value is. *)
Definition or_else (a : option string) (b : string) : string :=
  match a with
  | Some s => if String.eqb s "" then b else s
  | None => b
  end.

(** Truthiness of a value read from a parsed body ([None]: [undefined]). *)
Definition truthy (v : option Json) : bool :=
  match v with
  | None | Some JNull => false
  | Some (JBool b) => b
  | Some (JNumber d) => negb (PrimFloat.eqb d 0 || PrimFloat.is_nan d)
  | Some (JString s) => negb (String.eqb s "")
  | Some (JArray _) | Some (JObject _) => true
  end.

Definition typeof (v : option Json) : string :=
  match v with
  | None => "undefined"
  | Some (JBool _) => "boolean"
  | Some (JNumber _) => "number"
  | Some (JString _) => "string"
  | Some JNull | Some (JArray _) | Some (JObject _) => "object"
  end.

Fixpoint assoc {V} (k : string) (l : list (string * V)) : option V :=
  match l with
  | [] => None
  | (k', v) :: l' => if String.eqb k k' then Some v else assoc k l'
  end.

(** [v.k] for [k] one of [message], [sessionId]: an own property of a
    parsed object; strings, numbers, booleans and arrays have neither. *)
Definition get_property (k : string) (v : Json) : option Json :=
  match v with
  | JObject fields => assoc k fields
  | _ => None
  end.

(** ** MyDurableObject *)

Module MyDurableObject.

Definition DO (A : Type) : Type := Eff Table A.

Definition getHistory : DO (list ChatMessage) :=
  gets select_messages.

Definition addMessage (env : Env) (r : Role) (c : string) : DO unit :=
  modify (insert_message (unixepoch env) r c).

Definition clearHistory : DO unit :=
  modify delete_messages.

Definition system_prompt : ChatMessage :=
  {| role := system;
     content := "You are a helpful, friendly AI assistant. Keep your responses concise but informative." |}.

Definition llama : string := "@cf/meta/llama-3.3-70b-instruct-fp8-fast".

Definition apology : string := "I apologize, but I couldn't generate a response.".

(** [await this.env.AI.run(model, { messages })] *)
Definition run_ai (env : Env) (c : AiCall) : DO AiResponse :=
  fun t =>
    {| state := t; ai_calls := [c];
       result := match AI_run env c with
                 | AiReturns r => inr r
                 | AiThrows e => inl e
                 end |}.

(** [typeof response === "string" ? response : response.response || apology];
    reading a property of [null] or [undefined] throws. *)
Definition assistant_text (r : AiResponse) : Exn + string :=
  match r with
  | AiString s => inr s
  | AiNullish => inl (TypeError "Cannot read properties of null (reading 'response')")
  | AiObject f => inr (or_else f apology)
  end.

Definition chat (env : Env) (userMessage : string) : DO string :=
  addMessage env user userMessage;;
  history ← getHistory;
  let msgs := system_prompt :: history in
  response ← run_ai env {| model := llama; messages := msgs |};
  assistantMessage ← lift_result (assistant_text response);
  addMessage env assistant assistantMessage;;
  mret assistantMessage.

(** The inference call [chat] makes on storage [t] for message [m]:
    the system prompt, then the history read back after the user message
    went in. *)
Definition chat_call (env : Env) (m : string) (t : Table) : AiCall :=
  {| model := llama;
     messages := system_prompt
                 :: select_messages (insert_message (unixepoch env) user m t) |}.

(** A finite sequence of [addMessage] calls, each under the environment
    it runs with. *)
Fixpoint addMessages (l : list (Env * ChatMessage)) : DO unit :=
  match l with
  | [] => mret tt
  | (env, m) :: l' => addMessage env (role m) (content m);; addMessages l'
  end.

End MyDurableObject.

(** ** The Worker *)

Record Request := {
  method : string;
  pathname : string;
  searchParams : list (string * string);
  (** what [request.json()] settles to: the parsed body, or the error thrown *)
  json : Exn + Json
}.

Inductive Body :=
| NoBody
| TextBody (s : string)
| JsonBody (j : Json).

(** [headers] are the ones the handler passes in the init object. *)
Record Response := {
  status : Z;
  headers : list (string * string);
  body : Body
}.

Module Worker.

Import MyDurableObject.

(** The [MY_DURABLE_OBJECT] namespace: the storage of every object that
    ever ran, by name. *)
Abbreviation Namespace := (gmap string Table).

(** A method call through [getByName(name)]'s stub: the object is
    constructed over its own storage, runs the method there, and its
    storage is kept under its name. *)
Definition stub_call {A} (name : string) (m : DO A) : Eff Namespace A :=
  fun ns =>
    let o := m (create_table_if_not_exists (ns !! name)) in
    {| state := <[name := state o]> ns; ai_calls := ai_calls o;
       result := result o |}.

(** [env.MY_DURABLE_OBJECT.getByName(sessionId)] *)
Definition getByName (env : Env) (name : Json) : Exn + string :=
  match name with
  | JString s => inr s
  | v => match getByName_coerce env v with
         | Some s => inr s
         | None => inl (TypeError "Failed to execute 'getByName'")
         end
  end.

(** [const { message, sessionId = "default" } = body] *)
Definition destructure (b : Json) : Exn + (option Json * Json) :=
  match b with
  | JNull => inl (TypeError "Cannot destructure property 'message' of 'body' as it is null.")
  | _ => inr (get_property "message" b,
              default (JString "default") (get_property "sessionId" b))
  end.

(** [url.searchParams.get("sessionId") || "default"] *)
Definition sessionId_param (request : Request) : string :=
  or_else (assoc "sessionId" (searchParams request)) "default".

Definition Response_json (j : Json) (st : Z) (hs : list (string * string)) : Response :=
  {| status := st; headers := hs; body := JsonBody j |}.

Definition json_headers : list (string * string) :=
  [("Access-Control-Allow-Origin", "*"); ("Content-Type", "application/json")].

Definition message_json (m : ChatMessage) : Json :=
  JObject [("role", JString (role_text (role m))); ("content", JString (content m))].

Definition message_required : Response :=
  Response_json (JObject [("error", JString "Message is required")]) 400 [].

Definition failed_to_process : Response :=
  Response_json (JObject [("error", JString "Failed to process chat request")])
    500 [("Access-Control-Allow-Origin", "*")].

Definition not_found : Response :=
  {| status := 404; headers := []; body := TextBody "Not Found" |}.

Definition api_chat (env : Env) (request : Request) : Eff Namespace Response :=
  try_catch
    (b ← lift_result (json request);
     d ← lift_result (destructure b);
     let message := d.1 in
     let sessionId := d.2 in
     if negb (truthy message) || negb (String.eqb (typeof message) "string") then
       mret message_required
     else
       match message with
       | Some (JString m) =>
           name ← lift_result (getByName env sessionId);
           response ← stub_call name (chat env m);
           mret (Response_json
                   (JObject [("response", JString response); ("sessionId", sessionId)])
                   200 json_headers)
       | _ => throw (TypeError "message is not a string")
       end)
    (fun error => mret failed_to_process).

Definition api_history (request : Request) : Eff Namespace Response :=
  let sessionId := sessionId_param request in
  history ← stub_call sessionId getHistory;
  mret (Response_json
          (JObject [("history", JArray (map message_json history));
                    ("sessionId", JString sessionId)])
          200 json_headers).

Definition api_clear (request : Request) : Eff Namespace Response :=
  let sessionId := sessionId_param request in
  stub_call sessionId clearHistory;;
  mret (Response_json
          (JObject [("success", JBool true); ("sessionId", JString sessionId)])
          200 json_headers).

Definition fetch (env : Env) (request : Request) : Eff Namespace Response :=
  if String.eqb (method request) "OPTIONS" then
    mret {| status := 200;
            headers := [("Access-Control-Allow-Origin", "*");
                        ("Access-Control-Allow-Methods", "GET, POST, DELETE, OPTIONS");
                        ("Access-Control-Allow-Headers", "Content-Type")];
            body := NoBody |}
  else if String.eqb (pathname request) "/api/chat" && String.eqb (method request) "POST" then
    api_chat env request
  else if String.eqb (pathname request) "/api/history" && String.eqb (method request) "GET" then
    api_history request
  else if String.eqb (pathname request) "/api/clear" && String.eqb (method request) "DELETE" then
    api_clear request
  else if String.eqb (pathname request) "/api/health" then
    mret (Response_json
            (JObject [("status", JString "ok"); ("timestamp", JString (toISOString env))])
            200 [])
  else
    mret not_found.

(** The session name a request resolves, if it resolves one. *)
Definition session_of (env : Env) (request : Request) : option string :=
  if String.eqb (pathname request) "/api/chat" && String.eqb (method request) "POST" then
    match json request with
    | inr b =>
        match destructure b with
        | inr d =>
            match getByName env d.2 with
            | inr name => Some name
            | inl _ => None
            end
        | inl _ => None
        end
    | inl _ => None
    end
  else if String.eqb (pathname request) "/api/history" && String.eqb (method request) "GET" then
    Some (sessionId_param request)
  else if String.eqb (pathname request) "/api/clear" && String.eqb (method request) "DELETE" then
    Some (sessionId_param request)
  else None.

(** The namespace after a sequence of requests, handled one after the
    other, each under its own environment. *)
Fixpoint serve (l : list (Env * Request)) (ns : Namespace) : Namespace :=
  match l with
  | [] => ns
  | (env, request) :: l' => serve l' (state (fetch env request ns))
  end.

(** What [GET /api/history] would read for a session name. *)
Definition history_of (name : string) (ns : Namespace) : Exn + list ChatMessage :=
  result (stub_call name getHistory ns).

(** The five routes of the interface table: OPTIONS on any path,
    POST /api/chat, GET /api/history, DELETE /api/clear, GET /api/health. *)
Definition specified_route (request : Request) : bool :=
  String.eqb (method request) "OPTIONS"
  || (String.eqb (method request) "POST" && String.eqb (pathname request) "/api/chat")
  || (String.eqb (method request) "GET" && String.eqb (pathname request) "/api/history")
  || (String.eqb (method request) "DELETE" && String.eqb (pathname request) "/api/clear")
  || (String.eqb (method request) "GET" && String.eqb (pathname request) "/api/health").

End Worker.

(** ** Sample environments and requests *)

(** An environment whose inference call settles the same way on every
    input; a name that is not a string is refused. *)
Definition env_settling (o : AiOutcome) : Env :=
  {| AI_run := fun _ => o;
     unixepoch := 1705314600;
     toISOString := "2024-01-15T10:30:00.000Z";
     getByName_coerce := fun _ => None |}.

Definition post_chat (b : Exn + Json) : Request :=
  {| method := "POST"; pathname := "/api/chat"; searchParams := []; json := b |}.

Definition hi_abc : Json :=
  JObject [("message", JString "Hi"); ("sessionId", JString "abc")].

Definition get_history (params : list (string * string)) : Request :=
  {| method := "GET"; pathname := "/api/history"; searchParams := params;
     json := inl (SyntaxError "Unexpected end of JSON input") |}.

Definition delete_clear (params : list (string * string)) : Request :=
  {| method := "DELETE"; pathname := "/api/clear"; searchParams := params;
     json := inl (SyntaxError "Unexpected end of JSON input") |}.

(** ** Well-formed tables and histories *)

(** The ids of [l], in stored order, increase strictly from above [lo]. *)
Fixpoint ids_above (lo : Z) (l : list Row) : bool :=
  match l with
  | [] => true
  | r :: l' => (lo <? id r) && ids_above (id r) l'
  end.

(** The key of the [messages] table as AUTOINCREMENT keeps it: ids are
    positive, increase in stored order, and none is above the counter. *)
Definition table_ok (t : Table) : bool :=
  ids_above 0 (rows t) && (max_rowid (rows t) <=? sqlite_sequence t).



(** * Properties *)

Import MyDurableObject Worker.

(** Opens the sequencing of effects, down to the outcomes it combines. *)
Ltac unfold_eff := unfold try_catch, mbind, Eff_bind, bind.

(** The scenario of the README: one chat turn on session [abc], read back. *)
Example chat_then_history :
  let env := env_settling (AiReturns (AiObject (Some "Hello!"))) in
  let ns := state (fetch env (post_chat (inr hi_abc)) ∅) in
  result (fetch env (post_chat (inr hi_abc)) ∅)
  = inr (Response_json
           (JObject [("response", JString "Hello!"); ("sessionId", JString "abc")])
           200 json_headers)
  ∧ history_of "abc" ns
    = inr [{| role := user; content := "Hi" |};
           {| role := assistant; content := "Hello!" |}]
  ∧ history_of "other" ns = inr [].
Proof. repeat split. Qed.

(** ** The table: a new row sorts last *)

Lemma max_rowid_ge (l : list Row) (r : Row) : r ∈ l → id r ≤ max_rowid l.
Proof.
  induction l as [|r' l IH]; intros Hin.
  - inversion Hin.
  - apply elem_of_cons in Hin as [-> | Hin]; simpl; [lia|].
    specialize (IH Hin). lia.
Qed.

Lemma next_id_fresh (t : Table) (r : Row) : r ∈ rows t → id r < next_id t.
Proof. intros Hin%max_rowid_ge. unfold next_id. lia. Qed.

Lemma insert_by_id_elem (r x : Row) (l : list Row) :
  x ∈ insert_by_id r l ↔ x = r ∨ x ∈ l.
Proof.
  induction l as [|r' l IH]; simpl.
  - rewrite list_elem_of_singleton, elem_of_nil. tauto.
  - destruct (id r <=? id r').
    + rewrite elem_of_cons. tauto.
    + rewrite !elem_of_cons, IH. tauto.
Qed.

Lemma order_by_id_elem (x : Row) (l : list Row) : x ∈ order_by_id l ↔ x ∈ l.
Proof.
  induction l as [|r l IH]; simpl; [tauto|].
  rewrite insert_by_id_elem, elem_of_cons, IH. tauto.
Qed.

Lemma insert_by_id_snoc (r x : Row) (l : list Row) :
  id r < id x → insert_by_id r (l ++ [x]) = insert_by_id r l ++ [x].
Proof.
  intros Hlt. induction l as [|r' l IH]; simpl.
  - destruct (Z.leb_spec (id r) (id x)); [done | lia].
  - destruct (id r <=? id r'); [done|]. by rewrite IH.
Qed.

Lemma order_by_id_snoc (l : list Row) (x : Row) :
  (∀ r, r ∈ l → id r < id x) → order_by_id (l ++ [x]) = order_by_id l ++ [x].
Proof.
  induction l as [|r l IH]; intros Hlt; simpl; [done|].
  rewrite IH by (intros r' Hr'; apply Hlt; by right).
  apply insert_by_id_snoc, Hlt. by left.
Qed.

(** Whatever the table holds, the row an INSERT adds is read back last. *)
Lemma select_insert (now : Z) (r : Role) (c : string) (t : Table) :
  select_messages (insert_message now r c t)
  = select_messages t ++ [{| role := r; content := c |}].
Proof.
  unfold select_messages, insert_message; simpl.
  rewrite order_by_id_snoc by (intros r' Hr'; simpl; by apply next_id_fresh).
  by rewrite map_app.
Qed.

Lemma select_delete (t : Table) : select_messages (delete_messages t) = [].
Proof. reflexivity. Qed.

Lemma select_created : select_messages (create_table_if_not_exists None) = [].
Proof. reflexivity. Qed.

(** ** The methods, as equations on the storage *)

Lemma getHistory_eq (t : Table) :
  getHistory t = {| state := t; ai_calls := []; result := inr (select_messages t) |}.
Proof. reflexivity. Qed.

Lemma addMessage_eq (env : Env) (r : Role) (c : string) (t : Table) :
  addMessage env r c t
  = {| state := insert_message (unixepoch env) r c t; ai_calls := []; result := inr tt |}.
Proof. reflexivity. Qed.

Lemma clearHistory_eq (t : Table) :
  clearHistory t = {| state := delete_messages t; ai_calls := []; result := inr tt |}.
Proof. reflexivity. Qed.

Lemma chat_eq (env : Env) (m : string) (t : Table) :
  chat env m t =
  let t1 := insert_message (unixepoch env) user m t in
  match AI_run env (chat_call env m t) with
  | AiThrows e => {| state := t1; ai_calls := [chat_call env m t]; result := inl e |}
  | AiReturns r =>
      match assistant_text r with
      | inl e => {| state := t1; ai_calls := [chat_call env m t]; result := inl e |}
      | inr c => {| state := insert_message (unixepoch env) assistant c t1;
                    ai_calls := [chat_call env m t]; result := inr c |}
      end
  end.
Proof.
  unfold chat, chat_call, run_ai; unfold_eff; simpl.
  destruct (AI_run env _) as [r|e]; simpl; [|done].
  destruct (assistant_text r) as [e|c]; simpl; done.
Qed.

Lemma addMessages_eq (l : list (Env * ChatMessage)) (t : Table) :
  ∃ t', addMessages l t = {| state := t'; ai_calls := []; result := inr tt |}
        ∧ select_messages t' = select_messages t ++ l.*2.
Proof.
  revert t. induction l as [|[env m] l IH]; intros t; simpl.
  - exists t. by rewrite app_nil_r.
  - destruct (IH (insert_message (unixepoch env) (role m) (content m) t))
      as (t' & Hrun & Hsel).
    exists t'. split.
    + unfold_eff. rewrite addMessage_eq; simpl. by rewrite Hrun.
    + rewrite Hsel, select_insert, <- app_assoc. by destruct m.
Qed.

(** ** The conversation store *)

(** C2. After any finite sequence of [addMessage] calls on a session,
    [getHistory] returns what it returned before followed by exactly the
    appended messages, in the order of the calls, each with the role and
    the content it was given; on a new session, exactly those messages. *)
Theorem getHistory_after_appends :
  (∀ (l : list (Env * ChatMessage)) (t : Table),
     result ((addMessages l;; getHistory) t) = inr (select_messages t ++ l.*2))
  ∧ (∀ l : list (Env * ChatMessage),
       result ((addMessages l;; getHistory) (create_table_if_not_exists None))
       = inr l.*2).
Proof.
  assert (H : ∀ l t, result ((addMessages l;; getHistory) t)
                     = inr (select_messages t ++ l.*2)).
  { intros l t. destruct (addMessages_eq l t) as (t' & Hrun & Hsel).
    unfold_eff. rewrite Hrun; simpl. by rewrite Hsel. }
  split; [exact H|]. intros l. by rewrite H.
Qed.

(** C7. Whatever a session's log held, [clearHistory] followed by
    [getHistory] returns the empty sequence, and appends made after the
    clear are read back alone: none of the cleared messages comes back. *)
Theorem clearHistory_then_fresh_log (t : Table) :
  result ((clearHistory;; getHistory) t) = inr []
  ∧ ∀ l : list (Env * ChatMessage),
      result ((clearHistory;; addMessages l;; getHistory) t) = inr l.*2.
Proof.
  split; [reflexivity|]. intros l.
  destruct (addMessages_eq l (delete_messages t)) as (t' & Hrun & Hsel).
  unfold_eff. rewrite clearHistory_eq; simpl.
  rewrite Hrun; simpl. by rewrite Hsel.
Qed.

(** C1. [chat m] on a session whose log is empty passes the inference call
    exactly the system prompt followed by [{user, m}]; when the call yields
    a completion, [chat] returns it and the history holds exactly
    [{user, m}] and then [{assistant, completion}]. *)
Theorem chat_on_empty_log (env : Env) (m : string) (t : Table) :
  rows t = [] →
  ai_calls (chat env m t)
  = [{| model := llama;
        messages := [system_prompt; {| role := user; content := m |}] |}]
  ∧ ∀ (r : AiResponse) (c : string),
      AI_run env {| model := llama;
                    messages := [system_prompt; {| role := user; content := m |}] |}
      = AiReturns r →
      assistant_text r = inr c →
      result (chat env m t) = inr c
      ∧ result (getHistory (state (chat env m t)))
        = inr [{| role := user; content := m |}; {| role := assistant; content := c |}].
Proof.
  intros Hrows.
  assert (Hcall : chat_call env m t
                  = {| model := llama;
                       messages := [system_prompt; {| role := user; content := m |}] |}).
  { unfold chat_call. rewrite select_insert. unfold select_messages.
    by rewrite Hrows. }
  rewrite chat_eq, Hcall. split.
  - destruct (AI_run env _) as [r|e]; [destruct (assistant_text r)|]; done.
  - intros r c -> ->. cbn [result state]. split; [done|].
    rewrite getHistory_eq; cbn [result]. rewrite !select_insert.
    unfold select_messages. by rewrite Hrows.
Qed.

Lemma chat_on_empty_log_witness :
  result (chat (env_settling (AiReturns (AiString "Hello!"))) "hello"
            (create_table_if_not_exists None)) = inr "Hello!".
Proof.
  apply (proj2 (chat_on_empty_log (env_settling (AiReturns (AiString "Hello!")))
                  "hello" (create_table_if_not_exists None) eq_refl)
           (AiString "Hello!") "Hello!");
    reflexivity.
Defined.

(** C5 as stated fails: a structured result whose [response] field is
    present and holds the empty string yields the placeholder, not the
    field's value. *)
Lemma empty_response_field_yields_apology :
  let env := env_settling (AiReturns (AiObject (Some ""))) in
  let t := create_table_if_not_exists None in
  AI_run env (chat_call env "hello" t) = AiReturns (AiObject (Some ""))
  ∧ result (chat env "hello" t) = inr apology
  ∧ result (chat env "hello" t) ≠ inr "".
Proof. repeat split. discriminate. Qed.

(** C5, amended. A plain string result is the completion. For a structured
    result, the completion is the [response] field when that field is
    present and not the empty string, and the fixed placeholder when the
    field is absent or the empty string; so it is the placeholder exactly
    when the field is absent, empty, or the placeholder text itself. *)
Theorem completion_of_inference_result
    (env : Env) (m : string) (t : Table) (r : AiResponse) :
  AI_run env (chat_call env m t) = AiReturns r →
  (∀ s, r = AiString s → result (chat env m t) = inr s)
  ∧ (∀ f, r = AiObject (Some f) → f ≠ "" → result (chat env m t) = inr f)
  ∧ (r = AiObject (Some "") → result (chat env m t) = inr apology)
  ∧ (r = AiObject None → result (chat env m t) = inr apology)
  ∧ (∀ o, r = AiObject o →
       result (chat env m t) = inr apology
       ↔ o = None ∨ o = Some "" ∨ o = Some apology).
Proof.
  intros Hrun. rewrite chat_eq, Hrun. cbn zeta.
  assert (Hne : ∀ f, f ≠ "" → or_else (Some f) apology = f).
  { intros f Hf. unfold or_else. destruct (String.eqb_spec f ""); done. }
  repeat split.
  - by intros s ->.
  - intros f -> Hf. cbn [assistant_text result]. by rewrite Hne.
  - by intros ->.
  - by intros ->.
  - intros Heq. subst r. cbn [assistant_text result] in Heq.
    destruct o as [f|]; [|by left]. right.
    destruct (String.eqb_spec f "") as [->|Hf]; [by left|right].
    rewrite Hne in Heq by done. congruence.
  - intros [-> | [-> | ->]]; subst r; reflexivity.
Qed.

Lemma completion_of_inference_result_witness :
  result (chat (env_settling (AiReturns (AiObject (Some "Hello!")))) "hello"
            (create_table_if_not_exists None)) = inr "Hello!".
Proof.
  refine (proj1 (proj2 (completion_of_inference_result
            (env_settling (AiReturns (AiObject (Some "Hello!")))) "hello"
            (create_table_if_not_exists None) (AiObject (Some "Hello!")) eq_refl))
          "Hello!" eq_refl _).
  discriminate.
Defined.

(** ** The router *)

(** The guard [!message || typeof message !== "string"] lets through the
    non-empty strings and nothing else. *)
Lemma message_guard (v : option Json) :
  negb (truthy v) || negb (String.eqb (typeof v) "string") = false
  ↔ ∃ m, v = Some (JString m) ∧ m ≠ "".
Proof.
  split.
  - destruct v as [[ | b | d | s | items | fields]|]; simpl;
      try (rewrite orb_true_r; discriminate); try discriminate.
    rewrite orb_false_r, negb_involutive.
    destruct (String.eqb_spec s ""); [discriminate|]. intros _. by exists s.
  - intros (m & -> & Hm). simpl.
    destruct (String.eqb_spec m ""); done.
Qed.

Lemma fetch_api_chat (env : Env) (request : Request) :
  pathname request = "/api/chat" → method request = "POST" →
  fetch env request = api_chat env request.
Proof. intros Hp Hm. unfold fetch. by rewrite Hp, Hm. Qed.

Lemma api_chat_unparseable (env : Env) (request : Request) (ns : Namespace) (e : Exn) :
  json request = inl e →
  api_chat env request ns
  = {| state := ns; ai_calls := []; result := inr failed_to_process |}.
Proof.
  intros H. unfold api_chat; unfold_eff. by rewrite H.
Qed.

Lemma api_chat_null (env : Env) (request : Request) (ns : Namespace) :
  json request = inr JNull →
  api_chat env request ns
  = {| state := ns; ai_calls := []; result := inr failed_to_process |}.
Proof.
  intros H. unfold api_chat; unfold_eff. by rewrite H.
Qed.

Lemma api_chat_rejects (env : Env) (request : Request) (ns : Namespace) (b : Json) :
  json request = inr b → b ≠ JNull →
  (∀ m, get_property "message" b = Some (JString m) → m = "") →
  api_chat env request ns
  = {| state := ns; ai_calls := []; result := inr message_required |}.
Proof.
  intros Hjson Hnull Hmsg.
  assert (Hd : destructure b
               = inr (get_property "message" b,
                      default (JString "default") (get_property "sessionId" b)))
    by (by destruct b).
  assert (Hguard : negb (truthy (get_property "message" b))
                   || negb (String.eqb (typeof (get_property "message" b)) "string")
                   = true).
  { apply not_false_is_true. intros (m & Hm & Hne)%message_guard. by apply Hne, Hmsg. }
  unfold api_chat; unfold_eff.
  rewrite Hjson; cbn -[destructure truthy typeof String.eqb]. rewrite Hd.
  cbn -[truthy typeof String.eqb get_property]. by rewrite Hguard.
Qed.

Lemma api_chat_accepts (env : Env) (request : Request) (ns : Namespace)
    (b : Json) (m : string) (sessionId : Json) (name : string) :
  json request = inr b →
  destructure b = inr (Some (JString m), sessionId) → m ≠ "" →
  getByName env sessionId = inr name →
  api_chat env request ns
  = let o := chat env m (create_table_if_not_exists (ns !! name)) in
    {| state := <[name := state o]> ns;
       ai_calls := ai_calls o;
       result := match result o with
                 | inr response =>
                     inr (Response_json
                            (JObject [("response", JString response);
                                      ("sessionId", sessionId)])
                            200 json_headers)
                 | inl _ => inr failed_to_process
                 end |}.
Proof.
  intros Hjson Hd Hm Hname.
  assert (Hguard : negb (truthy (Some (JString m)))
                   || negb (String.eqb (typeof (Some (JString m))) "string") = false)
    by (apply message_guard; eauto).
  unfold api_chat; unfold_eff.
  rewrite Hjson; cbn -[destructure truthy typeof String.eqb]. rewrite Hd.
  cbn -[truthy typeof String.eqb chat]. rewrite Hguard, Hname.
  cbn -[chat]. unfold stub_call.
  destruct (chat env m _) as [t' calls [e|response]]; cbn;
    by rewrite ?app_nil_r.
Qed.

Lemma chat_inference_throws (env : Env) (m : string) (t : Table) (e : Exn) :
  AI_run env (chat_call env m t) = AiThrows e →
  chat env m t
  = {| state := insert_message (unixepoch env) user m t;
       ai_calls := [chat_call env m t]; result := inl e |}.
Proof. intros H. by rewrite chat_eq, H. Qed.

Lemma history_of_insert (name : string) (t : Table) (ns : Namespace) :
  history_of name (<[name := t]> ns) = inr (select_messages t).
Proof. unfold history_of, stub_call. by rewrite lookup_insert_eq. Qed.

(** C3. When the inference call inside [chat m] throws, [chat] ends with
    that error after one insert only: the user message is in the log, no
    assistant message is; and [POST /api/chat] answers 500 with
    [{"error": "Failed to process chat request"}], the session keeping the
    user message at the end of its history. *)
Theorem inference_failure_keeps_user_message
    (env : Env) (request : Request) (ns : Namespace)
    (b : Json) (m : string) (sessionId : Json) (name : string) (e : Exn) :
  pathname request = "/api/chat" → method request = "POST" →
  json request = inr b →
  destructure b = inr (Some (JString m), sessionId) → m ≠ "" →
  getByName env sessionId = inr name →
  AI_run env (chat_call env m (create_table_if_not_exists (ns !! name))) = AiThrows e →
  let t := create_table_if_not_exists (ns !! name) in
  let t1 := insert_message (unixepoch env) user m t in
  result (chat env m t) = inl e
  ∧ state (chat env m t) = t1
  ∧ result (getHistory t1) = inr (select_messages t ++ [{| role := user; content := m |}])
  ∧ result (fetch env request ns) = inr failed_to_process
  ∧ state (fetch env request ns) = <[name := t1]> ns
  ∧ history_of name (state (fetch env request ns))
    = inr (select_messages t ++ [{| role := user; content := m |}]).
Proof.
  intros Hp Hmeth Hjson Hd Hm Hname Hthrows t t1.
  pose proof (chat_inference_throws env m t e Hthrows) as Hchat.
  rewrite (fetch_api_chat env request Hp Hmeth).
  rewrite (api_chat_accepts env request ns b m sessionId name Hjson Hd Hm Hname).
  fold t. rewrite Hchat. cbn [result state]. fold t1.
  rewrite history_of_insert, getHistory_eq. cbn [result].
  unfold t1. rewrite select_insert. done.
Qed.

Lemma inference_failure_keeps_user_message_witness :
  result (fetch (env_settling (AiThrows (AiError "model unavailable")))
            (post_chat (inr hi_abc)) ∅) = inr failed_to_process
  ∧ history_of "abc"
      (state (fetch (env_settling (AiThrows (AiError "model unavailable")))
                (post_chat (inr hi_abc)) ∅))
    = inr [{| role := user; content := "Hi" |}].
Proof.
  pose proof (inference_failure_keeps_user_message
                (env_settling (AiThrows (AiError "model unavailable")))
                (post_chat (inr hi_abc)) ∅ hi_abc "Hi" (JString "abc") "abc"
                (AiError "model unavailable")
                eq_refl eq_refl eq_refl eq_refl) as H.
  destruct H as (_ & _ & _ & Hresp & _ & Hhist); [discriminate | reflexivity.. |].
  split; [exact Hresp | exact Hhist].
Defined.

(** C6 as stated fails: the JSON body [null] has no [message] field, yet
    the answer is the 500 of the catch block, not the 400. *)
Lemma null_body_is_not_rejected_with_400 :
  get_property "message" JNull = None
  ∧ result (fetch (env_settling (AiReturns (AiString "Hello!")))
              (post_chat (inr JNull)) ∅) = inr failed_to_process
  ∧ status failed_to_process = 500.
Proof. repeat split. Qed.

(** C6, amended. For a [POST /api/chat] whose body parses to a JSON value
    other than [null] and has no [message] field, or a [message] that is
    the empty string or not a string, the answer is 400 with
    [{"error": "Message is required"}]; and for every such body, [null]
    included, no session is touched and no inference call is made. *)
Theorem invalid_message_is_rejected
    (env : Env) (request : Request) (ns : Namespace) (b : Json) :
  pathname request = "/api/chat" → method request = "POST" →
  json request = inr b →
  (∀ m, get_property "message" b = Some (JString m) → m = "") →
  state (fetch env request ns) = ns
  ∧ ai_calls (fetch env request ns) = []
  ∧ (b ≠ JNull → result (fetch env request ns) = inr message_required).
Proof.
  intros Hp Hmeth Hjson Hmsg.
  rewrite (fetch_api_chat env request Hp Hmeth).
  assert (b = JNull ∨ b ≠ JNull) as [-> | Hnull]
    by (destruct b; auto; right; discriminate).
  - by rewrite (api_chat_null env request ns Hjson).
  - by rewrite (api_chat_rejects env request ns b Hjson Hnull Hmsg).
Qed.

Lemma invalid_message_is_rejected_witness :
  result (fetch (env_settling (AiReturns (AiString "Hello!")))
            (post_chat (inr (JObject [("message", JString "")]))) ∅)
  = inr message_required.
Proof.
  apply (invalid_message_is_rejected (env_settling (AiReturns (AiString "Hello!")))
           (post_chat (inr (JObject [("message", JString "")]))) ∅
           (JObject [("message", JString "")]) eq_refl eq_refl eq_refl).
  - intros m Hm. simpl in Hm. congruence.
  - discriminate.
Defined.

(** C10. A [POST /api/chat] whose body does not parse as JSON is answered
    500 with [{"error": "Failed to process chat request"}], not the 400 of
    the validation; no session is touched and no inference call is made. *)
Theorem unparseable_body_is_500
    (env : Env) (request : Request) (ns : Namespace) (e : Exn) :
  pathname request = "/api/chat" → method request = "POST" →
  json request = inl e →
  result (fetch env request ns) = inr failed_to_process
  ∧ status failed_to_process = 500
  ∧ failed_to_process ≠ message_required
  ∧ state (fetch env request ns) = ns
  ∧ ai_calls (fetch env request ns) = [].
Proof.
  intros Hp Hmeth Hjson.
  rewrite (fetch_api_chat env request Hp Hmeth).
  rewrite (api_chat_unparseable env request ns e Hjson).
  repeat split. discriminate.
Qed.

Lemma unparseable_body_is_500_witness :
  result (fetch (env_settling (AiReturns (AiString "Hello!")))
            (post_chat (inl (SyntaxError "Unexpected token"))) ∅)
  = inr failed_to_process.
Proof.
  apply (unparseable_body_is_500 (env_settling (AiReturns (AiString "Hello!")))
           (post_chat (inl (SyntaxError "Unexpected token"))) ∅
           (SyntaxError "Unexpected token") eq_refl eq_refl eq_refl).
Defined.

(** C8 as stated fails: [POST /api/health] is none of the five routes,
    and it is answered with the health report, not with 404. *)
Lemma post_health_is_not_404 :
  let request := {| method := "POST"; pathname := "/api/health";
                    searchParams := []; json := inl (SyntaxError "empty body") |} in
  let env := env_settling (AiReturns (AiString "Hello!")) in
  specified_route request = false
  ∧ result (fetch env request ∅)
    = inr (Response_json
             (JObject [("status", JString "ok");
                       ("timestamp", JString "2024-01-15T10:30:00.000Z")]) 200 [])
  ∧ result (fetch env request ∅) ≠ inr not_found.
Proof. repeat split. discriminate. Qed.

(** C8, amended. A request whose method and path are none of the five
    routes and whose path is not [/api/health] gets the generic answer:
    status 404, plain text "Not Found"; nothing else happens. *)
Theorem unmatched_route_is_not_found (env : Env) (request : Request) (ns : Namespace) :
  specified_route request = false →
  pathname request ≠ "/api/health" →
  fetch env request ns = {| state := ns; ai_calls := []; result := inr not_found |}
  ∧ status not_found = 404 ∧ body not_found = TextBody "Not Found".
Proof.
  intros Hspec Hhealth. split; [|done].
  unfold specified_route in Hspec. unfold fetch.
  destruct (String.eqb_spec (pathname request) "/api/health") as [|_]; [done|].
  destruct (String.eqb (method request) "OPTIONS"); [done|].
  destruct (String.eqb (pathname request) "/api/chat"),
           (String.eqb (method request) "POST"); simpl in *; try done;
  destruct (String.eqb (pathname request) "/api/history"),
           (String.eqb (method request) "GET"); simpl in *; try done;
  destruct (String.eqb (pathname request) "/api/clear"),
           (String.eqb (method request) "DELETE"); simpl in *; done.
Qed.

Lemma unmatched_route_is_not_found_witness :
  result (fetch (env_settling (AiReturns (AiString "Hello!")))
            {| method := "GET"; pathname := "/"; searchParams := [];
               json := inl (SyntaxError "empty body") |} ∅)
  = inr not_found.
Proof.
  rewrite (proj1 (unmatched_route_is_not_found
                    (env_settling (AiReturns (AiString "Hello!")))
                    {| method := "GET"; pathname := "/"; searchParams := [];
                       json := inl (SyntaxError "empty body") |} ∅
                    eq_refl ltac:(discriminate))).
  reflexivity.
Defined.

(** ** Isolation of sessions *)

Lemma stub_call_other {X} (A B : string) (m : DO X) (ns : Namespace) :
  A ≠ B → state (stub_call A m ns) !! B = ns !! B.
Proof. intros Hne. unfold stub_call; simpl. by rewrite lookup_insert_ne. Qed.

Lemma history_of_lookup (B : string) (ns ns' : Namespace) :
  ns' !! B = ns !! B → history_of B ns' = history_of B ns.
Proof. intros H. unfold history_of, stub_call; simpl. by rewrite H. Qed.

(** A request leaves the namespace as it was, or writes the storage of
    the one session it resolves. *)
Lemma fetch_writes_own_session (env : Env) (request : Request) (ns : Namespace) :
  state (fetch env request ns) = ns
  ∨ ∃ name t, session_of env request = Some name
              ∧ state (fetch env request ns) = <[name := t]> ns.
Proof.
  unfold fetch, session_of.
  destruct (String.eqb (method request) "OPTIONS"); [by left|].
  destruct (String.eqb (pathname request) "/api/chat" && String.eqb (method request) "POST").
  { destruct (json request) as [e|b] eqn:Hjson.
    { left. by rewrite (api_chat_unparseable env request ns e Hjson). }
    destruct (destructure b) as [e|[message sessionId]] eqn:Hd.
    { left. unfold api_chat; unfold_eff.
      rewrite Hjson; cbn -[destructure]. by rewrite Hd. }
    destruct (negb (truthy message) || negb (String.eqb (typeof message) "string"))
      eqn:Hguard.
    { left. unfold api_chat; unfold_eff.
      rewrite Hjson; cbn -[destructure truthy typeof String.eqb]. rewrite Hd.
      cbn -[truthy typeof String.eqb]. by rewrite Hguard. }
    apply message_guard in Hguard as (m & -> & Hm).
    cbn [snd]. destruct (getByName env sessionId) as [e|name] eqn:Hname.
    { left. unfold api_chat; unfold_eff.
      rewrite Hjson; cbn -[destructure truthy typeof String.eqb]. rewrite Hd.
      cbn -[String.eqb chat]. destruct (String.eqb_spec m ""); [done|].
      cbn -[chat]. by rewrite Hname. }
    right. exists name. eexists. split; [done|].
    by rewrite (api_chat_accepts env request ns b m sessionId name Hjson Hd Hm Hname). }
  destruct (String.eqb (pathname request) "/api/history" && String.eqb (method request) "GET").
  { right. eexists _, _. split; [done|]. reflexivity. }
  destruct (String.eqb (pathname request) "/api/clear" && String.eqb (method request) "DELETE").
  { right. eexists _, _. split; [done|]. reflexivity. }
  destruct (String.eqb (pathname request) "/api/health"); by left.
Qed.

Lemma fetch_other_session (env : Env) (request : Request) (ns : Namespace) (B : string) :
  session_of env request ≠ Some B →
  state (fetch env request ns) !! B = ns !! B.
Proof.
  intros Hne.
  destruct (fetch_writes_own_session env request ns) as [-> | (name & t & Hs & ->)];
    [done|].
  apply lookup_insert_ne. congruence.
Qed.

Lemma serve_other_session (l : list (Env * Request)) (ns : Namespace) (B : string) :
  Forall (λ er, session_of er.1 er.2 ≠ Some B) l →
  serve l ns !! B = ns !! B.
Proof.
  intros Hall. revert ns.
  induction Hall as [|[env request] l Hne _ IH]; intros ns; simpl; [done|].
  rewrite IH. by apply fetch_other_session.
Qed.

(** The answer to a request depends on the namespace only through the
    storage of the session the request resolves. *)
Lemma fetch_reads_own_session (env : Env) (request : Request) (ns ns' : Namespace) :
  (∀ name, session_of env request = Some name → ns' !! name = ns !! name) →
  result (fetch env request ns') = result (fetch env request ns)
  ∧ ai_calls (fetch env request ns') = ai_calls (fetch env request ns).
Proof.
  unfold fetch, session_of.
  destruct (String.eqb (method request) "OPTIONS"); [done|].
  destruct (String.eqb (pathname request) "/api/chat" && String.eqb (method request) "POST").
  { destruct (json request) as [e|b] eqn:Hjson.
    { intros _. by rewrite !(api_chat_unparseable env request _ e Hjson). }
    unfold api_chat; unfold_eff.
    rewrite Hjson; cbn -[destructure truthy typeof String.eqb].
    destruct (destructure b) as [e|[message sessionId]]; [done|].
    cbn -[truthy typeof String.eqb].
    destruct (negb (truthy message) || negb (String.eqb (typeof message) "string"));
      [done|].
    destruct message as [[ | | | m | | ]|]; try done.
    cbn -[chat]. destruct (getByName env sessionId) as [e|name];
      [intros _; by cbn|].
    intros Hsame. cbn -[chat]. unfold stub_call. rewrite (Hsame name eq_refl).
    destruct (chat env m _) as [t' calls [e|response]]; by cbn. }
  destruct (String.eqb (pathname request) "/api/history" && String.eqb (method request) "GET").
  { intros Hsame. unfold api_history, stub_call; unfold_eff.
    by rewrite (Hsame _ eq_refl). }
  destruct (String.eqb (pathname request) "/api/clear" && String.eqb (method request) "DELETE").
  { intros Hsame. unfold api_clear, stub_call; unfold_eff.
    by rewrite (Hsame _ eq_refl). }
  destruct (String.eqb (pathname request) "/api/health"); done.
Qed.

(** C4. For distinct session ids A and B: appending to A leaves what
    [getHistory] returns for B unchanged; requests that resolve to other
    sessions than B, in any number and order, leave B's storage and its
    history as they were; and the answer to a request for A is the same in
    any two namespaces that agree on A's storage, whatever the other
    sessions hold. *)
Theorem sessions_are_isolated
    (A B : string) (env : Env) (r : Role) (c : string)
    (l : list (Env * Request)) (ns : Namespace) :
  A ≠ B →
  Forall (λ er, session_of er.1 er.2 ≠ Some B) l →
  history_of B (state (stub_call A (addMessage env r c) ns)) = history_of B ns
  ∧ serve l ns !! B = ns !! B
  ∧ history_of B (serve l ns) = history_of B ns
  ∧ ∀ (env' : Env) (request : Request) (ns' : Namespace),
      session_of env' request = Some A → ns' !! A = ns !! A →
      result (fetch env' request ns') = result (fetch env' request ns).
Proof.
  intros Hne Hall. repeat split.
  - by apply history_of_lookup, stub_call_other.
  - by apply serve_other_session.
  - by apply history_of_lookup, serve_other_session.
  - intros env' request ns' Hs Hsame.
    apply fetch_reads_own_session. intros name Hname. congruence.
Qed.

Lemma sessions_are_isolated_witness :
  history_of "other"
    (serve [(env_settling (AiReturns (AiString "Hello!")), post_chat (inr hi_abc))] ∅)
  = inr [].
Proof.
  pose proof (sessions_are_isolated "abc" "other"
                (env_settling (AiReturns (AiString "Hello!"))) user "Hi"
                [(env_settling (AiReturns (AiString "Hello!")), post_chat (inr hi_abc))]
                ∅) as H.
  destruct H as (_ & _ & H & _).
  - discriminate.
  - repeat constructor. discriminate.
  - exact H.
Defined.

(** * Further properties of the store *)

(** ** One chat turn on any log *)

Lemma chat_calls (env : Env) (m : string) (t : Table) :
  ai_calls (chat env m t) = [chat_call env m t].
Proof.
  rewrite chat_eq; cbn zeta.
  destruct (AI_run env _) as [r|e]; [destruct (assistant_text r)|]; done.
Qed.

Lemma chat_returns (env : Env) (m : string) (t : Table) (c : string) :
  result (chat env m t) = inr c →
  state (chat env m t)
  = insert_message (unixepoch env) assistant c
      (insert_message (unixepoch env) user m t).
Proof.
  rewrite chat_eq; cbn zeta.
  destruct (AI_run env _) as [r|e]; [destruct (assistant_text r)|];
    cbn [result state]; congruence.
Qed.

Lemma chat_throws (env : Env) (m : string) (t : Table) (e : Exn) :
  result (chat env m t) = inl e →
  state (chat env m t) = insert_message (unixepoch env) user m t.
Proof.
  rewrite chat_eq; cbn zeta.
  destruct (AI_run env _) as [r|e']; [destruct (assistant_text r)|];
    cbn [result state]; congruence.
Qed.

(** X1. On any log, when the inference call yields a completion, [chat]
    makes that one call on the system prompt, the earlier history and the
    new user message, returns the completion, and the history grows by
    exactly the user message and then the assistant message. *)
Theorem chat_appends_turn
    (env : Env) (m : string) (t : Table) (r : AiResponse) (c : string) :
  AI_run env (chat_call env m t) = AiReturns r →
  assistant_text r = inr c →
  result (chat env m t) = inr c
  ∧ ai_calls (chat env m t)
    = [{| model := llama;
          messages := system_prompt
                      :: select_messages t ++ [{| role := user; content := m |}] |}]
  ∧ select_messages (state (chat env m t))
    = select_messages t
      ++ [{| role := user; content := m |}; {| role := assistant; content := c |}].
Proof.
  intros Hrun Htext. rewrite chat_eq, Hrun, Htext. cbn [result ai_calls state].
  unfold chat_call. rewrite !select_insert, <- app_assoc. done.
Qed.

Lemma chat_appends_turn_witness :
  select_messages
    (state (chat (env_settling (AiReturns (AiString "Hello!"))) "again"
              (insert_message 7 user "Hi" (create_table_if_not_exists None))))
  = [{| role := user; content := "Hi" |}; {| role := user; content := "again" |};
     {| role := assistant; content := "Hello!" |}].
Proof.
  apply (chat_appends_turn (env_settling (AiReturns (AiString "Hello!"))) "again"
           (insert_message 7 user "Hi" (create_table_if_not_exists None))
           (AiString "Hello!") "Hello!" eq_refl eq_refl).
Defined.

(** X2. Whatever the inference call does, [chat] makes exactly one call,
    keeps the earlier history in place and adds the user message after it;
    it adds the assistant message, last, exactly when it returns, and that
    message is the text it returns. *)
Theorem chat_keeps_earlier_history (env : Env) (m : string) (t : Table) :
  ai_calls (chat env m t) = [chat_call env m t]
  ∧ ((∃ c, result (chat env m t) = inr c
           ∧ select_messages (state (chat env m t))
             = select_messages t
               ++ [{| role := user; content := m |};
                   {| role := assistant; content := c |}])
     ∨ (∃ e, result (chat env m t) = inl e
             ∧ select_messages (state (chat env m t))
               = select_messages t ++ [{| role := user; content := m |}])).
Proof.
  split; [apply chat_calls|].
  destruct (result (chat env m t)) as [e|c] eqn:Hres.
  - right. exists e. split; [done|]. by rewrite (chat_throws env m t e Hres), select_insert.
  - left. exists c. split; [done|].
    by rewrite (chat_returns env m t c Hres), !select_insert, <- app_assoc.
Qed.

(** X3. Two turns in a row: the second inference call is given the first
    turn, the user message and the assistant's reply, ahead of the second
    user message. *)
Theorem second_turn_sees_first
    (env1 env2 : Env) (m1 m2 c1 : string) (t : Table) :
  result (chat env1 m1 t) = inr c1 →
  ai_calls ((chat env1 m1;; chat env2 m2) t)
  = [chat_call env1 m1 t;
     {| model := llama;
        messages := system_prompt
                    :: select_messages t
                       ++ [{| role := user; content := m1 |};
                           {| role := assistant; content := c1 |};
                           {| role := user; content := m2 |}] |}].
Proof.
  intros Hres. unfold_eff. rewrite Hres. cbn [ai_calls].
  rewrite !chat_calls. unfold chat_call at 2.
  rewrite (chat_returns env1 m1 t c1 Hres), !select_insert, <- !app_assoc. done.
Qed.

Lemma second_turn_sees_first_witness :
  ai_calls ((chat (env_settling (AiReturns (AiString "Hello!"))) "Hi";;
             chat (env_settling (AiReturns (AiString "Fine."))) "How are you?")
              (create_table_if_not_exists None))
  = [{| model := llama;
        messages := [system_prompt; {| role := user; content := "Hi" |}] |};
     {| model := llama;
        messages := [system_prompt; {| role := user; content := "Hi" |};
                     {| role := assistant; content := "Hello!" |};
                     {| role := user; content := "How are you?" |}] |}].
Proof.
  apply (second_turn_sees_first (env_settling (AiReturns (AiString "Hello!")))
           (env_settling (AiReturns (AiString "Fine."))) "Hi" "How are you?" "Hello!"
           (create_table_if_not_exists None) eq_refl).
Defined.

(** ** The key of the messages table *)

Lemma max_rowid_nonneg (l : list Row) : 0 ≤ max_rowid l.
Proof. induction l; simpl; lia. Qed.

Lemma max_rowid_app (l l' : list Row) :
  max_rowid (l ++ l') = Z.max (max_rowid l) (max_rowid l').
Proof. induction l as [|r l IH]; simpl; [pose proof (max_rowid_nonneg l')|]; lia. Qed.

Lemma ids_above_snoc (lo : Z) (l : list Row) (x : Row) :
  ids_above lo l = true → Z.max lo (max_rowid l) < id x →
  ids_above lo (l ++ [x]) = true.
Proof.
  revert lo. induction l as [|r l IH]; intros lo; simpl.
  - intros _ Hlt. rewrite andb_true_r. apply Z.ltb_lt. lia.
  - intros [Hr Hl]%andb_true_iff Hlt. apply andb_true_iff. split; [done|].
    apply IH; [done | lia].
Qed.

Lemma ids_above_lower (lo : Z) (l : list Row) (r : Row) :
  ids_above lo l = true → r ∈ l → lo < id r.
Proof.
  revert lo. induction l as [|r' l IH]; intros lo; simpl; [by intros _ ?%elem_of_nil|].
  intros [Hr Hl]%andb_true_iff [-> | Hin]%elem_of_cons.
  - by apply Z.ltb_lt.
  - apply Z.ltb_lt in Hr. specialize (IH _ Hl Hin). lia.
Qed.

Lemma ids_above_order (lo : Z) (l : list Row) :
  ids_above lo l = true → order_by_id l = l.
Proof.
  revert lo. induction l as [|r l IH]; intros lo; simpl; [done|].
  intros [_ Hl]%andb_true_iff. rewrite (IH _ Hl).
  destruct l as [|r' l]; simpl; [done|].
  simpl in Hl. apply andb_true_iff in Hl as [Hlt%Z.ltb_lt _].
  destruct (Z.leb_spec (id r) (id r')); [done | lia].
Qed.

Lemma ids_above_NoDup (lo : Z) (l : list Row) :
  ids_above lo l = true → NoDup (id <$> l).
Proof.
  revert lo. induction l as [|r l IH]; intros lo; simpl; [constructor|].
  intros [_ Hl]%andb_true_iff. constructor; [|by eapply IH].
  intros (r' & Heq & Hin)%list_elem_of_fmap.
  pose proof (ids_above_lower _ _ _ Hl Hin). lia.
Qed.

Lemma table_ok_created : table_ok (create_table_if_not_exists None) = true.
Proof. reflexivity. Qed.

Lemma table_ok_delete (t : Table) : table_ok t = true → table_ok (delete_messages t) = true.
Proof.
  unfold table_ok; simpl. intros [_ Hmax%Z.leb_le]%andb_true_iff.
  apply Z.leb_le. pose proof (max_rowid_nonneg (rows t)). lia.
Qed.

Lemma table_ok_insert (now : Z) (r : Role) (c : string) (t : Table) :
  table_ok t = true → table_ok (insert_message now r c t) = true.
Proof.
  unfold table_ok; simpl. intros [Hids Hmax%Z.leb_le]%andb_true_iff.
  pose proof (max_rowid_nonneg (rows t)).
  apply andb_true_iff. split.
  - apply ids_above_snoc; [done|]. simpl. unfold next_id. lia.
  - apply Z.leb_le. rewrite max_rowid_app. simpl. unfold next_id. lia.
Qed.

(** ** What a request can do to the namespace *)

Lemma fetch_state_cases (env : Env) (request : Request) (ns : Namespace) :
  state (fetch env request ns) = ns
  ∨ ∃ name,
      state (fetch env request ns) = <[name := create_table_if_not_exists (ns !! name)]> ns
      ∨ state (fetch env request ns)
        = <[name := delete_messages (create_table_if_not_exists (ns !! name))]> ns
      ∨ ∃ m, state (fetch env request ns)
             = <[name := state (chat env m (create_table_if_not_exists (ns !! name)))]> ns.
Proof.
  unfold fetch.
  destruct (String.eqb (method request) "OPTIONS"); [by left|].
  destruct (String.eqb (pathname request) "/api/chat" && String.eqb (method request) "POST").
  { destruct (json request) as [e|b] eqn:Hjson.
    { left. by rewrite (api_chat_unparseable env request ns e Hjson). }
    destruct (destructure b) as [e|[message sessionId]] eqn:Hd.
    { left. unfold api_chat; unfold_eff.
      rewrite Hjson; cbn -[destructure]. by rewrite Hd. }
    destruct (negb (truthy message) || negb (String.eqb (typeof message) "string"))
      eqn:Hguard.
    { left. unfold api_chat; unfold_eff.
      rewrite Hjson; cbn -[destructure truthy typeof String.eqb]. rewrite Hd.
      cbn -[truthy typeof String.eqb]. by rewrite Hguard. }
    apply message_guard in Hguard as (m & -> & Hm).
    destruct (getByName env sessionId) as [e|name] eqn:Hname.
    { left. unfold api_chat; unfold_eff.
      rewrite Hjson; cbn -[destructure truthy typeof String.eqb]. rewrite Hd.
      cbn -[String.eqb chat]. destruct (String.eqb_spec m ""); [done|].
      cbn -[chat]. by rewrite Hname. }
    right. exists name. right. right. exists m.
    by rewrite (api_chat_accepts env request ns b m sessionId name Hjson Hd Hm Hname). }
  destruct (String.eqb (pathname request) "/api/history" && String.eqb (method request) "GET").
  { right. exists (sessionId_param request). by left. }
  destruct (String.eqb (pathname request) "/api/clear" && String.eqb (method request) "DELETE").
  { right. exists (sessionId_param request). right. by left. }
  destruct (String.eqb (pathname request) "/api/health"); by left.
Qed.

Lemma table_ok_chat (env : Env) (m : string) (t : Table) :
  table_ok t = true → table_ok (state (chat env m t)) = true.
Proof.
  intros Hok. destruct (result (chat env m t)) as [e|c] eqn:Hres.
  - rewrite (chat_throws _ _ _ e Hres). by apply table_ok_insert.
  - rewrite (chat_returns _ _ _ c Hres). by do 2 apply table_ok_insert.
Qed.

(** A property of tables that creation, [chat] and DELETE keep holds of
    every table after any sequence of requests. *)
Lemma serve_invariant (P : Table → Prop) (l : list (Env * Request)) (ns : Namespace) :
  P (create_table_if_not_exists None) →
  (∀ env m t, P t → P (state (chat env m t))) →
  (∀ t, P t → P (delete_messages t)) →
  map_Forall (λ _ t, P t) ns →
  map_Forall (λ _ t, P t) (serve l ns).
Proof.
  intros Hnew Hchat Hdel. revert ns.
  induction l as [|[env request] l IH]; intros ns Hns; simpl; [done|].
  apply IH.
  assert (Hcreate : ∀ name, P (create_table_if_not_exists (ns !! name))).
  { intros name. destruct (ns !! name) as [t|] eqn:Ht; [|done]. by apply (Hns name). }
  destruct (fetch_state_cases env request ns)
    as [-> | (name & [-> | [-> | (m & ->)]])]; [done|..];
    apply map_Forall_insert_2; auto.
Qed.

(** X4. In every table reached by requests from a new namespace, the ids
    are positive and strictly increasing in stored order and none is above
    the AUTOINCREMENT counter; so the ids are distinct and [ORDER BY id]
    returns the rows in the order they were inserted. *)
Theorem reachable_tables_ok (l : list (Env * Request)) (name : string) (t : Table) :
  serve l ∅ !! name = Some t →
  table_ok t = true
  ∧ NoDup (id <$> rows t)
  ∧ order_by_id (rows t) = rows t.
Proof.
  intros Hlookup.
  assert (Hok : table_ok t = true).
  { refine (serve_invariant (λ t, table_ok t = true) l ∅ table_ok_created
              table_ok_chat table_ok_delete _ name t Hlookup).
    apply map_Forall_empty. }
  split; [done|].
  apply andb_true_iff in Hok as [Hids _].
  split; [by eapply ids_above_NoDup | by eapply ids_above_order].
Qed.

Lemma reachable_tables_ok_witness :
  NoDup (id <$> rows (state (chat (env_settling (AiReturns (AiString "Hello!"))) "Hi"
                               (create_table_if_not_exists None)))).
Proof.
  apply (reachable_tables_ok
           [(env_settling (AiReturns (AiString "Hello!")), post_chat (inr hi_abc))]
           "abc"
           (state (chat (env_settling (AiReturns (AiString "Hello!"))) "Hi"
                     (create_table_if_not_exists None)))).
  reflexivity.
Defined.

Lemma addMessages_rows (l : list (Env * ChatMessage)) (t : Table) :
  ∃ news, rows (state (addMessages l t)) = rows t ++ news
          ∧ Forall (λ r, Z.max (sqlite_sequence t) (max_rowid (rows t)) < id r) news.
Proof.
  revert t. induction l as [|[env m] l IH]; intros t.
  - exists []. simpl. by rewrite app_nil_r.
  - cbn [addMessages]. unfold_eff. rewrite addMessage_eq. cbn [result state].
    destruct (IH (insert_message (unixepoch env) (role m) (content m) t))
      as (news & Hrows & Hnews).
    destruct (addMessages l _) as [t' calls [e|[]]]; cbn [result state] in *.
    + eexists (_ :: news). rewrite Hrows. simpl. rewrite <- app_assoc.
      split; [done|]. constructor; [simpl; unfold next_id; lia|].
      eapply Forall_impl; [exact Hnews|]. simpl. intros r.
      rewrite max_rowid_app. simpl. unfold next_id. lia.
    + eexists (_ :: news). rewrite Hrows. simpl. rewrite <- app_assoc.
      split; [done|]. constructor; [simpl; unfold next_id; lia|].
      eapply Forall_impl; [exact Hnews|]. simpl. intros r.
      rewrite max_rowid_app. simpl. unfold next_id. lia.
Qed.

(** X5. Ids are not reused across a clear: every row appended after
    [clearHistory] gets an id above the id of every row the table held
    before, because DELETE keeps the AUTOINCREMENT counter. *)
Theorem ids_not_reused_after_clear
    (t : Table) (l : list (Env * ChatMessage)) (old new : Row) :
  table_ok t = true →
  old ∈ rows t →
  new ∈ rows (state ((clearHistory;; addMessages l) t)) →
  id old < id new.
Proof.
  intros [_ Hmax%Z.leb_le]%andb_true_iff Hold.
  unfold_eff. rewrite clearHistory_eq. cbn [result state].
  destruct (addMessages_rows l (delete_messages t)) as (news & Hrows & Hnews).
  intros Hnew.
  assert (Hin : new ∈ news).
  { destruct (addMessages l (delete_messages t)) as [t' calls [e|[]]];
      cbn [result state] in *; by rewrite Hrows in Hnew. }
  rewrite Forall_forall in Hnews. specialize (Hnews new Hin). simpl in Hnews.
  pose proof (max_rowid_ge _ _ Hold). lia.
Qed.

Lemma ids_not_reused_after_clear_witness :
  id {| id := 1; row_role := user; row_content := "Hi"; created_at := 7 |}
  < id {| id := 2; row_role := user; row_content := "again";
          created_at := 1705314600 |}.
Proof.
  apply (ids_not_reused_after_clear
           (insert_message 7 user "Hi" (create_table_if_not_exists None))
           [(env_settling (AiThrows (AiError "unused")),
             {| role := user; content := "again" |})]
           {| id := 1; row_role := user; row_content := "Hi"; created_at := 7 |}
           {| id := 2; row_role := user; row_content := "again";
              created_at := 1705314600 |}).
  - reflexivity.
  - simpl. apply list_elem_of_singleton. reflexivity.
  - simpl. apply list_elem_of_singleton. reflexivity.
Defined.

(** * Further properties of the router *)

Lemma fetch_api_history (env : Env) (request : Request) :
  pathname request = "/api/history" → method request = "GET" →
  fetch env request = api_history request.
Proof. intros Hp Hm. unfold fetch. by rewrite Hp, Hm. Qed.

Lemma fetch_api_clear (env : Env) (request : Request) :
  pathname request = "/api/clear" → method request = "DELETE" →
  fetch env request = api_clear request.
Proof. intros Hp Hm. unfold fetch. by rewrite Hp, Hm. Qed.

Lemma destructure_object (b : Json) (v : Json) :
  get_property "message" b = Some v →
  destructure b
  = inr (Some v, default (JString "default") (get_property "sessionId" b)).
Proof. intros H. destruct b; try discriminate. unfold destructure. by rewrite H. Qed.

(** Reading a session through its stub leaves every history as it was. *)
Lemma history_of_touch (name n : string) (ns : Namespace) :
  history_of n (<[name := create_table_if_not_exists (ns !! name)]> ns)
  = history_of n ns.
Proof.
  unfold history_of, stub_call; cbn [result].
  destruct (decide (name = n)) as [->|Hne].
  - rewrite lookup_insert_eq. by destruct (ns !! n).
  - by rewrite lookup_insert_ne.
Qed.

(** ** POST /api/chat, accepted *)

(** X6. A [POST /api/chat] with a non-empty string [message], whose
    inference call yields a completion, is answered 200 with
    [{response, sessionId}], the [sessionId] being the one resolved; the
    session's history grows by the user message and then the reply, and
    one inference call is made. *)
Theorem chat_request_success
    (env : Env) (request : Request) (ns : Namespace)
    (b : Json) (m name c : string) :
  pathname request = "/api/chat" → method request = "POST" →
  json request = inr b →
  get_property "message" b = Some (JString m) → m ≠ "" →
  getByName env (default (JString "default") (get_property "sessionId" b)) = inr name →
  result (chat env m (create_table_if_not_exists (ns !! name))) = inr c →
  result (fetch env request ns)
  = inr (Response_json
           (JObject [("response", JString c);
                     ("sessionId", default (JString "default")
                                     (get_property "sessionId" b))])
           200 json_headers)
  ∧ history_of name (state (fetch env request ns))
    = inr (select_messages (create_table_if_not_exists (ns !! name))
           ++ [{| role := user; content := m |};
               {| role := assistant; content := c |}])
  ∧ ai_calls (fetch env request ns)
    = [chat_call env m (create_table_if_not_exists (ns !! name))].
Proof.
  intros Hp Hmeth Hjson Hmsg Hm Hname Hres.
  rewrite (fetch_api_chat env request Hp Hmeth).
  rewrite (api_chat_accepts env request ns b m _ name Hjson
             (destructure_object b _ Hmsg) Hm Hname).
  cbn zeta. cbn [result state ai_calls]. rewrite Hres, history_of_insert, chat_calls.
  by rewrite (chat_returns _ _ _ c Hres), !select_insert, <- app_assoc.
Qed.

Lemma chat_request_success_witness :
  history_of "abc"
    (state (fetch (env_settling (AiReturns (AiString "Hello!")))
              (post_chat (inr hi_abc)) ∅))
  = inr [{| role := user; content := "Hi" |};
         {| role := assistant; content := "Hello!" |}].
Proof.
  refine (proj1 (proj2 (chat_request_success
            (env_settling (AiReturns (AiString "Hello!")))
            (post_chat (inr hi_abc)) ∅ hi_abc "Hi" "abc" "Hello!"
            eq_refl eq_refl eq_refl eq_refl _ eq_refl eq_refl))).
  discriminate.
Defined.

(** X7. A body without a [sessionId] field is served by the session named
    [default], and the answer says so. *)
Theorem chat_without_sessionId_uses_default
    (env : Env) (request : Request) (ns : Namespace) (b : Json) (m : string) :
  pathname request = "/api/chat" → method request = "POST" →
  json request = inr b →
  get_property "message" b = Some (JString m) → m ≠ "" →
  get_property "sessionId" b = None →
  state (fetch env request ns)
  = <["default" := state (chat env m (create_table_if_not_exists (ns !! "default")))]> ns
  ∧ ∀ c, result (chat env m (create_table_if_not_exists (ns !! "default"))) = inr c →
         result (fetch env request ns)
         = inr (Response_json
                  (JObject [("response", JString c); ("sessionId", JString "default")])
                  200 json_headers).
Proof.
  intros Hp Hmeth Hjson Hmsg Hm Hsid.
  pose proof (destructure_object b _ Hmsg) as Hd. rewrite Hsid in Hd. cbn [default] in Hd.
  rewrite (fetch_api_chat env request Hp Hmeth).
  rewrite (api_chat_accepts env request ns b m _ "default" Hjson Hd Hm eq_refl).
  split; [done|]. intros c Hres. cbn zeta. cbn [result]. by rewrite Hres.
Qed.

Lemma chat_without_sessionId_uses_default_witness :
  history_of "default"
    (state (fetch (env_settling (AiReturns (AiString "Hello!")))
              (post_chat (inr (JObject [("message", JString "Hi")]))) ∅))
  = inr [{| role := user; content := "Hi" |};
         {| role := assistant; content := "Hello!" |}].
Proof.
  rewrite (proj1 (chat_without_sessionId_uses_default
                    (env_settling (AiReturns (AiString "Hello!")))
                    (post_chat (inr (JObject [("message", JString "Hi")]))) ∅
                    (JObject [("message", JString "Hi")]) "Hi"
                    eq_refl eq_refl eq_refl eq_refl ltac:(discriminate) eq_refl)).
  reflexivity.
Defined.

(** X8. When the inference call resolves to [null] or [undefined], reading
    its [response] throws: [POST /api/chat] answers 500 with the generic
    error body, and the session keeps the user message without a reply. *)
Theorem null_inference_result_is_500
    (env : Env) (request : Request) (ns : Namespace)
    (b : Json) (m name : string) :
  pathname request = "/api/chat" → method request = "POST" →
  json request = inr b →
  get_property "message" b = Some (JString m) → m ≠ "" →
  getByName env (default (JString "default") (get_property "sessionId" b)) = inr name →
  AI_run env (chat_call env m (create_table_if_not_exists (ns !! name)))
  = AiReturns AiNullish →
  result (fetch env request ns) = inr failed_to_process
  ∧ history_of name (state (fetch env request ns))
    = inr (select_messages (create_table_if_not_exists (ns !! name))
           ++ [{| role := user; content := m |}]).
Proof.
  intros Hp Hmeth Hjson Hmsg Hm Hname Hrun.
  rewrite (fetch_api_chat env request Hp Hmeth).
  rewrite (api_chat_accepts env request ns b m _ name Hjson
             (destructure_object b _ Hmsg) Hm Hname).
  rewrite chat_eq, Hrun. cbn zeta. cbn [assistant_text result state].
  by rewrite history_of_insert, select_insert.
Qed.

Lemma null_inference_result_is_500_witness :
  history_of "abc"
    (state (fetch (env_settling (AiReturns AiNullish)) (post_chat (inr hi_abc)) ∅))
  = inr [{| role := user; content := "Hi" |}].
Proof.
  refine (proj2 (null_inference_result_is_500 (env_settling (AiReturns AiNullish))
                   (post_chat (inr hi_abc)) ∅ hi_abc "Hi" "abc"
                   eq_refl eq_refl eq_refl eq_refl _ eq_refl eq_refl)).
  discriminate.
Defined.

(** ** GET /api/history and DELETE /api/clear *)

(** X9. [GET /api/history] answers 200 with the history of the session
    named by the query and that name, makes no inference call, and leaves
    the history of every session as it was; a session never written to
    reads as the empty history, not as an error. *)
Theorem history_request_reads_session
    (env : Env) (request : Request) (ns : Namespace) :
  pathname request = "/api/history" → method request = "GET" →
  result (fetch env request ns)
  = inr (Response_json
           (JObject [("history",
                      JArray (map message_json
                                (select_messages
                                   (create_table_if_not_exists
                                      (ns !! sessionId_param request)))));
                     ("sessionId", JString (sessionId_param request))])
           200 json_headers)
  ∧ ai_calls (fetch env request ns) = []
  ∧ (∀ n, history_of n (state (fetch env request ns)) = history_of n ns)
  ∧ (ns !! sessionId_param request = None →
     history_of (sessionId_param request) ns = inr []).
Proof.
  intros Hp Hmeth. rewrite (fetch_api_history env request Hp Hmeth).
  unfold api_history, stub_call; unfold_eff. cbn [getHistory gets result state ai_calls].
  repeat split.
  - intros n. apply history_of_touch.
  - intros Hnone. unfold history_of, stub_call; cbn [result]. by rewrite Hnone.
Qed.

Lemma history_request_reads_session_witness :
  result (fetch (env_settling (AiThrows (AiError "unused")))
            (get_history [("sessionId", "abc")]) ∅)
  = inr (Response_json
           (JObject [("history", JArray []); ("sessionId", JString "abc")])
           200 json_headers).
Proof.
  exact (proj1 (history_request_reads_session
                  (env_settling (AiThrows (AiError "unused")))
                  (get_history [("sessionId", "abc")]) ∅ eq_refl eq_refl)).
Defined.



(** X11. [DELETE /api/clear] answers 200 with [{success: true, sessionId}]
    and makes no inference call; afterwards the named session reads as
    empty and every other session reads as before; clearing again changes
    nothing more. *)
Theorem clear_request_empties_session
    (env : Env) (request : Request) (ns : Namespace) :
  pathname request = "/api/clear" → method request = "DELETE" →
  result (fetch env request ns)
  = inr (Response_json
           (JObject [("success", JBool true);
                     ("sessionId", JString (sessionId_param request))])
           200 json_headers)
  ∧ ai_calls (fetch env request ns) = []
  ∧ history_of (sessionId_param request) (state (fetch env request ns)) = inr []
  ∧ (∀ n, n ≠ sessionId_param request →
          history_of n (state (fetch env request ns)) = history_of n ns)
  ∧ state (fetch env request (state (fetch env request ns)))
    = state (fetch env request ns).
Proof.
  intros Hp Hmeth. rewrite (fetch_api_clear env request Hp Hmeth).
  unfold api_clear, stub_call; unfold_eff. unfold mret, Eff_ret, ret.
  cbn [clearHistory modify result state ai_calls].
  repeat split.
  - by rewrite history_of_insert.
  - intros n Hn. apply history_of_lookup. by rewrite lookup_insert_ne.
  - by rewrite lookup_insert_eq, insert_insert_eq.
Qed.

Lemma clear_request_empties_session_witness :
  history_of "abc"
    (state (fetch (env_settling (AiThrows (AiError "unused")))
              (delete_clear [("sessionId", "abc")])
              (state (fetch (env_settling (AiReturns (AiString "Hello!")))
                        (post_chat (inr hi_abc)) ∅))))
  = inr [].
Proof.
  exact (proj1 (proj2 (proj2 (clear_request_empties_session
           (env_settling (AiThrows (AiError "unused")))
           (delete_clear [("sessionId", "abc")])
           (state (fetch (env_settling (AiReturns (AiString "Hello!")))
                     (post_chat (inr hi_abc)) ∅))
           eq_refl eq_refl)))).
Defined.

(** X12. After a clear the model is given none of the earlier
    conversation: the next [chat] calls it with the system prompt and the
    new user message only, whatever the log held. *)
Theorem clear_forgets_context (env : Env) (m : string) (t : Table) :
  ai_calls ((clearHistory;; chat env m) t)
  = [{| model := llama;
        messages := [system_prompt; {| role := user; content := m |}] |}].
Proof.
  unfold_eff. rewrite clearHistory_eq. cbn [result state ai_calls].
  rewrite chat_calls. unfold chat_call. by rewrite select_insert, select_delete.
Qed.

(** ** What the handler never does *)

(** X13. A request makes no inference call, or it is a [POST /api/chat]
    and makes exactly one. *)
Theorem at_most_one_inference_call (env : Env) (request : Request) (ns : Namespace) :
  ai_calls (fetch env request ns) = []
  ∨ (pathname request = "/api/chat" ∧ method request = "POST"
     ∧ ∃ m name, ai_calls (fetch env request ns)
                 = [chat_call env m (create_table_if_not_exists (ns !! name))]).
Proof.
  unfold fetch.
  destruct (String.eqb (method request) "OPTIONS"); [by left|].
  destruct (String.eqb_spec (pathname request) "/api/chat") as [Hp|_];
    [destruct (String.eqb_spec (method request) "POST") as [Hmeth|_]|]; cbn [andb].
  { destruct (json request) as [e|b] eqn:Hjson.
    { left. by rewrite (api_chat_unparseable env request ns e Hjson). }
    destruct (destructure b) as [e|[message sessionId]] eqn:Hd.
    { left. unfold api_chat; unfold_eff.
      rewrite Hjson; cbn -[destructure]. by rewrite Hd. }
    destruct (negb (truthy message) || negb (String.eqb (typeof message) "string"))
      eqn:Hguard.
    { left. unfold api_chat; unfold_eff.
      rewrite Hjson; cbn -[destructure truthy typeof String.eqb]. rewrite Hd.
      cbn -[truthy typeof String.eqb]. by rewrite Hguard. }
    apply message_guard in Hguard as (m & -> & Hm).
    destruct (getByName env sessionId) as [e|name] eqn:Hname.
    { left. unfold api_chat; unfold_eff.
      rewrite Hjson; cbn -[destructure truthy typeof String.eqb]. rewrite Hd.
      cbn -[String.eqb chat]. destruct (String.eqb_spec m ""); [done|].
      cbn -[chat]. by rewrite Hname. }
    right. split; [done|]. split; [done|]. exists m, name.
    rewrite (api_chat_accepts env request ns b m sessionId name Hjson Hd Hm Hname).
    cbn zeta. cbn [ai_calls]. apply chat_calls. }
  all: destruct (String.eqb (pathname request) "/api/history"
                 && String.eqb (method request) "GET"); [by left|];
       destruct (String.eqb (pathname request) "/api/clear"
                 && String.eqb (method request) "DELETE"); [by left|];
       destruct (String.eqb (pathname request) "/api/health"); by left.
Qed.

Lemma api_chat_refused_name (env : Env) (request : Request) (ns : Namespace)
    (b : Json) (m : string) (sessionId : Json) (e : Exn) :
  json request = inr b →
  destructure b = inr (Some (JString m), sessionId) → m ≠ "" →
  getByName env sessionId = inl e →
  api_chat env request ns
  = {| state := ns; ai_calls := []; result := inr failed_to_process |}.
Proof.
  intros Hjson Hd Hm Hname. unfold api_chat; unfold_eff.
  rewrite Hjson; cbn -[destructure truthy typeof String.eqb]. rewrite Hd.
  cbn -[String.eqb chat]. destruct (String.eqb_spec m ""); [done|].
  cbn -[chat]. by rewrite Hname.
Qed.

(** The answers of [POST /api/chat]: the 400, the 500, or a 200. *)
Lemma api_chat_result (env : Env) (request : Request) (ns : Namespace) :
  ∃ resp, result (api_chat env request ns) = inr resp
          ∧ (status resp = 200 ∨ resp = message_required ∨ resp = failed_to_process).
Proof.
  destruct (json request) as [e|b] eqn:Hjson.
  { rewrite (api_chat_unparseable env request ns e Hjson). eauto. }
  destruct (destructure b) as [e|[message sessionId]] eqn:Hd.
  { unfold api_chat; unfold_eff.
    rewrite Hjson; cbn -[destructure]. rewrite Hd. cbn. eauto. }
  destruct (negb (truthy message) || negb (String.eqb (typeof message) "string"))
    eqn:Hguard.
  { unfold api_chat; unfold_eff.
    rewrite Hjson; cbn -[destructure truthy typeof String.eqb]. rewrite Hd.
    cbn -[truthy typeof String.eqb]. rewrite Hguard. cbn. eauto. }
  apply message_guard in Hguard as (m & -> & Hm).
  destruct (getByName env sessionId) as [e|name] eqn:Hname.
  { rewrite (api_chat_refused_name env request ns b m sessionId e Hjson Hd Hm Hname).
    eauto. }
  rewrite (api_chat_accepts env request ns b m sessionId name Hjson Hd Hm Hname).
  cbn zeta. cbn [result].
  destruct (result (chat env m _)) as [e|c]; eauto.
Qed.

(** X14. The handler always answers: no exception leaves it, and its
    answer has status 200 or is one of three fixed answers, the 400
    "Message is required", the 500 "Failed to process chat request" and
    the 404 "Not Found"; what was thrown is not shown to the caller. *)
Theorem fetch_always_answers (env : Env) (request : Request) (ns : Namespace) :
  ∃ resp, result (fetch env request ns) = inr resp
          ∧ (status resp = 200 ∨ resp = message_required
             ∨ resp = failed_to_process ∨ resp = not_found).
Proof.
  unfold fetch.
  destruct (String.eqb (method request) "OPTIONS"); [cbn; eauto|].
  destruct (String.eqb (pathname request) "/api/chat" && String.eqb (method request) "POST").
  { destruct (api_chat_result env request ns) as (resp & -> & [H | [H | H]]); eauto 6. }
  destruct (String.eqb (pathname request) "/api/history" && String.eqb (method request) "GET");
    [cbn; eauto|].
  destruct (String.eqb (pathname request) "/api/clear" && String.eqb (method request) "DELETE");
    [cbn; eauto|].
  destruct (String.eqb (pathname request) "/api/health"); cbn; eauto 6.
Qed.

(** X15. [POST /api/chat] with a parsed body answers the 400 exactly when
    the body is not [null] and its [message] is missing, not a string, or
    the empty string: a non-empty string is never rejected, whatever
    characters it holds. *)
Theorem rejected_iff_invalid_message
    (env : Env) (request : Request) (ns : Namespace) (b : Json) :
  pathname request = "/api/chat" → method request = "POST" →
  json request = inr b →
  result (fetch env request ns) = inr message_required
  ↔ b ≠ JNull ∧ ∀ m, get_property "message" b = Some (JString m) → m = "".
Proof.
  intros Hp Hmeth Hjson. rewrite (fetch_api_chat env request Hp Hmeth). split.
  - intros Hres. split.
    + intros ->. by rewrite (api_chat_null env request ns Hjson) in Hres.
    + intros m Hmsg. destruct (String.eqb_spec m "") as [|Hm]; [done|]. exfalso.
      pose proof (destructure_object b _ Hmsg) as Hd.
      destruct (getByName env (default (JString "default") (get_property "sessionId" b)))
        as [e|name] eqn:Hname.
      * by rewrite (api_chat_refused_name env request ns b m _ e Hjson Hd Hm Hname)
          in Hres.
      * rewrite (api_chat_accepts env request ns b m _ name Hjson Hd Hm Hname) in Hres.
        cbn zeta in Hres. cbn [result] in Hres.
        destruct (result (chat env m _)); discriminate.
  - intros [Hnull Hmsg]. by rewrite (api_chat_rejects env request ns b Hjson Hnull Hmsg).
Qed.

Lemma rejected_iff_invalid_message_witness :
  result (fetch (env_settling (AiReturns (AiString "Hello!")))
            (post_chat (inr (JObject [("message", JBool true)]))) ∅)
  = inr message_required.
Proof.
  apply (rejected_iff_invalid_message (env_settling (AiReturns (AiString "Hello!")))
           (post_chat (inr (JObject [("message", JBool true)]))) ∅
           (JObject [("message", JBool true)]) eq_refl eq_refl eq_refl).
  split; [discriminate|]. intros m Hm. discriminate.
Defined.

(** X16. [OPTIONS] is answered before any route is looked at, with the
    CORS preflight answer, whatever the path and the body; and a request
    that is none of [POST /api/chat], [GET /api/history] and
    [DELETE /api/clear] leaves every session's storage untouched and makes
    no inference call. *)
Theorem other_requests_leave_store (env : Env) (request : Request) (ns : Namespace) :
  (method request = "OPTIONS" →
   fetch env request ns
   = {| state := ns; ai_calls := [];
        result := inr {| status := 200;
                         headers := [("Access-Control-Allow-Origin", "*");
                                     ("Access-Control-Allow-Methods",
                                      "GET, POST, DELETE, OPTIONS");
                                     ("Access-Control-Allow-Headers", "Content-Type")];
                         body := NoBody |} |})
  ∧ (¬ (pathname request = "/api/chat" ∧ method request = "POST") →
     ¬ (pathname request = "/api/history" ∧ method request = "GET") →
     ¬ (pathname request = "/api/clear" ∧ method request = "DELETE") →
     state (fetch env request ns) = ns ∧ ai_calls (fetch env request ns) = []).
Proof.
  split.
  - intros Hmeth. unfold fetch. by rewrite Hmeth.
  - intros Hchat Hhistory Hclear. unfold fetch.
    destruct (String.eqb (method request) "OPTIONS"); [done|].
    destruct (String.eqb_spec (pathname request) "/api/chat"),
             (String.eqb_spec (method request) "POST"); cbn [andb]; [tauto|..];
    destruct (String.eqb_spec (pathname request) "/api/history"),
             (String.eqb_spec (method request) "GET"); cbn [andb]; try tauto;
    destruct (String.eqb_spec (pathname request) "/api/clear"),
             (String.eqb_spec (method request) "DELETE"); cbn [andb]; try tauto;
    destruct (String.eqb (pathname request) "/api/health"); done.
Qed.

Lemma other_requests_leave_store_witness :
  state (fetch (env_settling (AiReturns (AiString "Hello!")))
           {| method := "OPTIONS"; pathname := "/api/chat"; searchParams := [];
              json := inr hi_abc |} ∅) = ∅
  ∧ state (fetch (env_settling (AiReturns (AiString "Hello!")))
             {| method := "GET"; pathname := "/api/chat"; searchParams := [];
                json := inr hi_abc |} ∅) = ∅.
Proof.
  split.
  - rewrite (proj1 (other_requests_leave_store
                      (env_settling (AiReturns (AiString "Hello!")))
                      {| method := "OPTIONS"; pathname := "/api/chat";
                         searchParams := []; json := inr hi_abc |} ∅) eq_refl).
    reflexivity.
  - apply (proj2 (other_requests_leave_store
                    (env_settling (AiReturns (AiString "Hello!")))
                    {| method := "GET"; pathname := "/api/chat";
                       searchParams := []; json := inr hi_abc |} ∅));
      intros [Hp Hm]; discriminate.
Defined.

(** ** The shape of a history *)




